(** * Navitia client types: identifiers, place containers, coordinates

    A shallow embedding of the [types] package of the Navitia.io Go client:
    - [ID], with [ID.Check] and [ID.Type];
    - [PlaceCountainer] and the [Place] interface it resolves to;
    - [Coordinates] and its [UnmarshalJSON].

    Conventions.
    - A Go [string] is a sequence of bytes: Rocq's [string].
    - A Go [error] is an interface value: [option error], [None] being [nil].
    - A Go pointer [*T] is [ptr T]: [nil], or an address together with the
      value stored there. Pointers compare by address.
    - Go maps are stdpp [gmap]s; indexing a missing key yields the zero
      value of the element type. *)

From Stdlib Require Import PrimFloat.
From Stdlib Require Import String Ascii List ZArith Bool Lia.
From stdpp Require Import base option strings gmap.
Import ListNotations.

Local Open Scope string_scope.
Local Open Scope list_scope.

(** ** Strings *)

(** The one-character string holding a double quote (byte 34). *)
Definition dquote : string := String (ascii_of_nat 34) EmptyString.

(** [len(s)] of a Go string: its number of bytes. *)
Definition len (s : string) : nat := String.length s.

(** [strings.Split(s, sep)] for a one-byte separator [sep]: the substrings
    of [s] between the occurrences of [sep]. The result is never empty:
    a string without separator is returned whole, as the only element. *)
Fixpoint strings_Split (s : string) (sep : ascii) : list string :=
  match s with
  | EmptyString => [EmptyString]
  | String c s' =>
      if Ascii.eqb c sep then EmptyString :: strings_Split s' sep
      else match strings_Split s' sep with
           | [] => [String c EmptyString]
           | x :: xs => String c x :: xs
           end
  end.

(** [c] occurs nowhere in [s]. *)
Fixpoint no_byte (c : ascii) (s : string) : Prop :=
  match s with
  | EmptyString => True
  | String a s' => a <> c /\ no_byte c s'
  end.

(** ** Errors *)

(** The two causes a [*strconv.NumError] can carry. *)
Inductive NumErrKind : Type := ErrSyntax | ErrRange.

(** The error values that flow through the package.
    - [fundamental]: made by [errors.Errorf] (github.com/pkg/errors);
    - [withMessage]: made by [errors.Wrap] around a cause;
    - [NumError]: returned by [strconv.ParseFloat];
    - [jsonError]: returned by [json.Unmarshal];
    - [UnmarshalError]: the package's own decoding error. *)
#[warnings="-register-all"]
Inductive error : Type :=
| fundamental (msg : string)
| withMessage (cause : error) (msg : string)
| NumError (Func Num : string) (Err : NumErrKind)
| jsonError (msg : string)
| UnmarshalError (Type_ Key Name Value Message : string)
                 (Underlying : option error) (Full : string).

(** [errors.Wrap(err, msg)]: [nil] when [err] is [nil]. *)
Definition errors_Wrap (err : option error) (msg : string) : option error :=
  match err with
  | None => None
  | Some e => Some (withMessage e msg)
  end.

(** ** ID *)

Definition ID : Type := string.

(** [func (id ID) Check() error] *)
Definition ID_Check (id : ID) : option error :=
  if Nat.eqb (len id) 0 then
    Some (fundamental ("ID invalid: an empty string " ++ dquote ++ dquote
                       ++ " is not a valid ID"))
  else None.

(** [var typeNames = map[string]bool{...}] *)
Definition typeNames : gmap string bool :=
  <["network" := true]> (
  <["line" := true]> (
  <["route" := true]> (
  <["stop_area" := true]> (
  <["commercial_mode" := true]> (
  <["physical_mode" := true]> (
  <["company" := true]> (
  <["admin" := true]> (
  <["stop_point" := true]> ∅)))))))).

(** [m[k]] on a [map[string]bool]: [false] for a key that is absent. *)
Definition map_index (m : gmap string bool) (k : string) : bool :=
  default false (m !! k).

(** [func (id ID) Type() string] *)
Definition ID_Type (id : ID) : string :=
  let splitted := strings_Split id ":"%char in
  match splitted with
  | [] => EmptyString
  | possible :: _ =>
      if map_index typeNames possible then possible else EmptyString
  end.

(** The nine type names listed in the documentation of [ID.Type]. *)
Definition known_type_names : list string :=
  ["network"; "line"; "route"; "stop_area"; "commercial_mode";
   "physical_mode"; "company"; "admin"; "stop_point"].

(** ** Pointers *)

(** A Go pointer [*T]: [nilptr], or [ptr_to a v], the address [a] of a
    variable that holds [v]. *)
Inductive ptr (T : Type) : Type :=
| nilptr
| ptr_to (addr : positive) (v : T).
Arguments nilptr {T}.
Arguments ptr_to {T} addr v.

(** [p == q] on pointers: both [nil], or the same address. *)
Definition ptr_eqb {T : Type} (p q : ptr T) : bool :=
  match p, q with
  | nilptr, nilptr => true
  | ptr_to a _, ptr_to b _ => Pos.eqb a b
  | _, _ => false
  end.

(** [p != nil] *)
Definition is_nilptr {T : Type} (p : ptr T) : bool :=
  match p with
  | nilptr => true
  | ptr_to _ _ => false
  end.

(** ** Places *)

(** [type Coordinates struct]: two [float64] fields. *)
Record Coordinates : Type := {
  Latitude : float;
  Longitude : float;
}.

(** [Equipment] is declared elsewhere in the package; only lists of it are
    carried here, so its values are kept as their JSON strings. *)
Definition Equipment : Type := string.

Record AdministrativeRegion : Type := {
  ar_ID : ID;
  ar_Name : string;
  ar_Label : string;
  ar_Coord : Coordinates;
  ar_Level : Z;
  ar_ZipCode : string;
}.

Record POIType : Type := {
  poitype_ID : ID;
  poitype_Name : string;
}.

Record POI : Type := {
  poi_ID : ID;
  poi_Name : string;
  poi_Label : string;
  poi_Type : POIType;
}.

Record Address : Type := {
  add_ID : ID;
  add_Name : string;
  add_Label : string;
  add_Coord : Coordinates;
  add_HouseNumber : N;
  add_AdministrativeRegions : list AdministrativeRegion;
}.

(** A [StopArea] lists its [StopPoint]s and a [StopPoint] points back to
    its [StopArea]: the two structs are declared together. *)
Inductive StopArea : Type :=
  Build_StopArea (ID_ : ID) (Name Label : string) (Coord : Coordinates)
                 (AdministrativeRegions : list AdministrativeRegion)
                 (StopPoints : list StopPoint)
with StopPoint : Type :=
  Build_StopPoint (ID_ : ID) (Name : string) (Coord : Coordinates)
                  (AdministrativeRegions : list AdministrativeRegion)
                  (Equipments : list Equipment)
                  (StopArea_ : ptr StopArea).

Definition sa_ID (sa : StopArea) : ID :=
  match sa with Build_StopArea i _ _ _ _ _ => i end.
Definition sa_Name (sa : StopArea) : string :=
  match sa with Build_StopArea _ n _ _ _ _ => n end.
Definition sp_ID (sp : StopPoint) : ID :=
  match sp with Build_StopPoint i _ _ _ _ _ => i end.
Definition sp_Name (sp : StopPoint) : string :=
  match sp with Build_StopPoint _ n _ _ _ _ => n end.

(** The methods that make each struct a [Place]. *)
Definition StopArea_PlaceID (sa : StopArea) : ID := sa_ID sa.
Definition StopArea_PlaceName (sa : StopArea) : string := sa_Name sa.
Definition StopArea_PlaceType (sa : StopArea) : string := "stop_area".

Definition POI_PlaceID (poi : POI) : ID := poi_ID poi.
Definition POI_PlaceName (poi : POI) : string := poi_Name poi.
Definition POI_PlaceType (poi : POI) : string := "poi".

Definition Address_PlaceID (add : Address) : ID := add_ID add.
Definition Address_PlaceName (add : Address) : string := add_Name add.
Definition Address_PlaceType (add : Address) : string := "address".

Definition StopPoint_PlaceID (sp : StopPoint) : ID := sp_ID sp.
Definition StopPoint_PlaceName (sp : StopPoint) : string := sp_Name sp.
Definition StopPoint_PlaceType (sp : StopPoint) : string := "stop_point".

Definition AdministrativeRegion_PlaceID (ar : AdministrativeRegion) : ID :=
  ar_ID ar.
Definition AdministrativeRegion_PlaceName (ar : AdministrativeRegion)
  : string := ar_Name ar.
Definition AdministrativeRegion_PlaceType (ar : AdministrativeRegion)
  : string := "administrative_region".

(** A value of the interface type [Place]: the nil interface, or a dynamic
    type that has the three methods together with a value of that type.
    [PlaceCountainer.Place] produces the pointer types only; an interface
    that holds a nil pointer is not the nil interface. *)
Inductive Place : Type :=
| Place_nil
| Place_StopArea (p : ptr StopArea)
| Place_POI (p : ptr POI)
| Place_Address (p : ptr Address)
| Place_StopPoint (p : ptr StopPoint)
| Place_AdministrativeRegion (p : ptr AdministrativeRegion).

(** [p == nil] on an interface value. *)
Definition Place_is_nil (p : Place) : bool :=
  match p with
  | Place_nil => true
  | _ => false
  end.

(** Calling a value-receiver method [m] through a pointer dereferences it;
    through a nil pointer that is a run-time panic, [None] here. *)
Definition call_through {T R : Type} (m : T -> R) (p : ptr T) : option R :=
  match p with
  | nilptr => None
  | ptr_to _ v => Some (m v)
  end.

(** [p.PlaceType()] on an interface value; [None] is a run-time panic
    (nil interface, or nil pointer inside the interface). *)
Definition Place_PlaceType (p : Place) : option string :=
  match p with
  | Place_nil => None
  | Place_StopArea q => call_through StopArea_PlaceType q
  | Place_POI q => call_through POI_PlaceType q
  | Place_Address q => call_through Address_PlaceType q
  | Place_StopPoint q => call_through StopPoint_PlaceType q
  | Place_AdministrativeRegion q =>
      call_through AdministrativeRegion_PlaceType q
  end.

(** [p.PlaceID()] on an interface value. *)
Definition Place_PlaceID (p : Place) : option ID :=
  match p with
  | Place_nil => None
  | Place_StopArea q => call_through StopArea_PlaceID q
  | Place_POI q => call_through POI_PlaceID q
  | Place_Address q => call_through Address_PlaceID q
  | Place_StopPoint q => call_through StopPoint_PlaceID q
  | Place_AdministrativeRegion q =>
      call_through AdministrativeRegion_PlaceID q
  end.

(** [p.PlaceName()] on an interface value. *)
Definition Place_PlaceName (p : Place) : option string :=
  match p with
  | Place_nil => None
  | Place_StopArea q => call_through StopArea_PlaceName q
  | Place_POI q => call_through POI_PlaceName q
  | Place_Address q => call_through Address_PlaceName q
  | Place_StopPoint q => call_through StopPoint_PlaceName q
  | Place_AdministrativeRegion q =>
      call_through AdministrativeRegion_PlaceName q
  end.

(** [type PlaceCountainer struct]. [Quality] is a [uint], a natural number
    below 2^64; nothing here computes with it. *)
Record PlaceCountainer : Type := {
  pc_ID : ID;
  pc_Name : string;
  pc_Quality : N;
  pc_EmbeddedType : string;
  pc_StopArea : ptr StopArea;
  pc_POI : ptr POI;
  pc_Address : ptr Address;
  pc_StopPoint : ptr StopPoint;
  pc_AdministrativeRegion : ptr AdministrativeRegion;
}.

(** [PlaceCountainer{}]: every field at its zero value. *)
Definition empty : PlaceCountainer := {|
  pc_ID := EmptyString;
  pc_Name := EmptyString;
  pc_Quality := 0%N;
  pc_EmbeddedType := EmptyString;
  pc_StopArea := nilptr;
  pc_POI := nilptr;
  pc_Address := nilptr;
  pc_StopPoint := nilptr;
  pc_AdministrativeRegion := nilptr;
|}.

(** [a == b] on two [PlaceCountainer]s: field by field. *)
Definition PlaceCountainer_eqb (a b : PlaceCountainer) : bool :=
  String.eqb (pc_ID a) (pc_ID b)
  && String.eqb (pc_Name a) (pc_Name b)
  && N.eqb (pc_Quality a) (pc_Quality b)
  && String.eqb (pc_EmbeddedType a) (pc_EmbeddedType b)
  && ptr_eqb (pc_StopArea a) (pc_StopArea b)
  && ptr_eqb (pc_POI a) (pc_POI b)
  && ptr_eqb (pc_Address a) (pc_Address b)
  && ptr_eqb (pc_StopPoint a) (pc_StopPoint b)
  && ptr_eqb (pc_AdministrativeRegion a) (pc_AdministrativeRegion b).

(** [func (pc PlaceCountainer) Place() (Place, error)] *)
Definition PlaceCountainer_Place (pc : PlaceCountainer)
  : Place * option error :=
  if PlaceCountainer_eqb pc empty then (Place_nil, None)
  else if String.eqb (pc_EmbeddedType pc) "stop_area" then
    (Place_StopArea (pc_StopArea pc), None)
  else if String.eqb (pc_EmbeddedType pc) "poi" then
    (Place_POI (pc_POI pc), None)
  else if String.eqb (pc_EmbeddedType pc) "address" then
    (Place_Address (pc_Address pc), None)
  else if String.eqb (pc_EmbeddedType pc) "stop_point" then
    (Place_StopPoint (pc_StopPoint pc), None)
  else if String.eqb (pc_EmbeddedType pc) "administrative_region" then
    (Place_AdministrativeRegion (pc_AdministrativeRegion pc), None)
  else
    (Place_nil,
     Some (fundamental ("No known embedded type indicated (we have "
                        ++ dquote ++ pc_EmbeddedType pc ++ dquote
                        ++ "), can't return a place !"))).

(** The five discriminants that [Place] switches on. *)
Definition recognized : list string :=
  ["stop_area"; "poi"; "address"; "stop_point"; "administrative_region"].

(** The variant field that goes with the discriminant of [pc] is nil
    (also [true] when the discriminant is none of the five). *)
Definition variant_is_nil (pc : PlaceCountainer) : bool :=
  if String.eqb (pc_EmbeddedType pc) "stop_area" then
    is_nilptr (pc_StopArea pc)
  else if String.eqb (pc_EmbeddedType pc) "poi" then
    is_nilptr (pc_POI pc)
  else if String.eqb (pc_EmbeddedType pc) "address" then
    is_nilptr (pc_Address pc)
  else if String.eqb (pc_EmbeddedType pc) "stop_point" then
    is_nilptr (pc_StopPoint pc)
  else if String.eqb (pc_EmbeddedType pc) "administrative_region" then
    is_nilptr (pc_AdministrativeRegion pc)
  else true.

(** ** Coordinates *)

(** The anonymous struct that [UnmarshalJSON] decodes into: the two
    coordinates as the API sends them, as JSON strings. *)
Record coordData : Type := {
  data_Latitude : string;
  data_Longitude : string;
}.

(** The two library functions [UnmarshalJSON] calls.
    - [json_Unmarshal b data] is [json.Unmarshal(b, data)] for a [data] of
      the struct above: the struct after the call, and the error.
    - [strconv_ParseFloat s bitSize] is [strconv.ParseFloat]: it returns a
      float together with its error, also when the error is not nil. *)
Class GoLib : Type := {
  json_Unmarshal : string -> coordData -> coordData * option error;
  strconv_ParseFloat : string -> Z -> float * option error;
}.

(** [type unmarshalErrorMaker struct], built as
    [unmarshalErrorMaker{"Coordinates", b}]. *)
Record unmarshalErrorMaker : Type := {
  gen_Type : string;
  gen_Full : string;
}.

(** Modelled from the spec: [unmarshalErrorMaker.err] is declared in a file
    of the package that is not at hand. The spec has the decoder report
    a parse error with a named field context on failure: the error made
    records the type being decoded, the Go name and the JSON key of the
    field, the offending value, a message, the underlying error and the
    whole input. It is never nil. *)
Definition unmarshalErrorMaker_err (gen : unmarshalErrorMaker)
    (underlyingErr : option error) (name key value message : string)
  : option error :=
  Some (UnmarshalError (gen_Type gen) key name value message
                       underlyingErr (gen_Full gen)).

(** [func (c *Coordinates) UnmarshalJSON(b []byte) error], for a receiver
    that is not nil: the struct [c] points to after the call, and the
    error. Each [c.X, err = strconv.ParseFloat(...)] assigns the field
    before [err] is looked at. *)
Definition Coordinates_UnmarshalJSON `{GoLib} (c : Coordinates) (b : string)
  : Coordinates * option error :=
  let data := {| data_Latitude := EmptyString;
                 data_Longitude := EmptyString |} in
  let '(data, err) := json_Unmarshal b data in
  match err with
  | Some _ => (c, errors_Wrap err "Error while unmarshalling journey")
  | None =>
      let gen := {| gen_Type := "Coordinates"; gen_Full := b |} in
      let '(lon, err) := strconv_ParseFloat (data_Longitude data) 64 in
      let c := {| Latitude := Latitude c; Longitude := lon |} in
      match err with
      | Some _ =>
          (c, unmarshalErrorMaker_err gen err "Longitude" "lon"
                (data_Longitude data) "error in strconv.ParseFloat")
      | None =>
          let '(lat, err) := strconv_ParseFloat (data_Latitude data) 64 in
          let c := {| Latitude := lat; Longitude := Longitude c |} in
          match err with
          | Some _ =>
              (c, unmarshalErrorMaker_err gen err "Latitude" "lat"
                    (data_Latitude data) "error in strconv.ParseFloat")
          | None => (c, None)
          end
      end
  end.

(** The field context an error carries: the Go name and the JSON key of
    the field it blames, when it is an [UnmarshalError]. *)
Definition named_field (e : option error) : option (string * string) :=
  match e with
  | Some (UnmarshalError _ key name _ _ _ _) => Some (name, key)
  | _ => None
  end.

(** What the calls inside [c.UnmarshalJSON(b)] return: the decoding of
    [b] into the zero-valued struct, and the parsing of its two fields. *)
Definition decoded `{GoLib} (b : string) : coordData * option error :=
  json_Unmarshal b {| data_Latitude := EmptyString;
                      data_Longitude := EmptyString |}.

Definition parsed_lon `{GoLib} (b : string) : float * option error :=
  strconv_ParseFloat (data_Longitude (fst (decoded b))) 64.

Definition parsed_lat `{GoLib} (b : string) : float * option error :=
  strconv_ParseFloat (data_Latitude (fst (decoded b))) 64.

(** Case analysis on the three calls of [UnmarshalJSON]. *)
Ltac unmarshal_cases b :=
  unfold Coordinates_UnmarshalJSON, parsed_lat, parsed_lon, decoded;
  destruct (json_Unmarshal b _) as [?data [?e|]]; simpl;
  [|destruct (strconv_ParseFloat (data_Longitude _) 64) as [?f [?e|]]; simpl;
    [|destruct (strconv_ParseFloat (data_Latitude _) 64) as [?g [?e|]];
      simpl]].

(** *** The library functions on a few inputs

    What [encoding/json] and [strconv] return on the documents and the
    number strings of the examples below, as a table. The last line of
    each table refuses every other input; no example reads that line. *)

(** The API's document for a pair of coordinate strings: an object with
    the string-valued fields lat and lon. *)
Definition api_document (lat lon : string) : string :=
  "{" ++ dquote ++ "lat" ++ dquote ++ ":" ++ dquote ++ lat ++ dquote
  ++ "," ++ dquote ++ "lon" ++ dquote ++ ":" ++ dquote ++ lon ++ dquote
  ++ "}".

Definition table_json_Unmarshal (b : string) (data : coordData)
  : coordData * option error :=
  if String.eqb b (api_document "48.5" "2.25") then
    ({| data_Latitude := "48.5"; data_Longitude := "2.25" |}, None)
  else if String.eqb b (api_document "48.5" "1e999") then
    ({| data_Latitude := "48.5"; data_Longitude := "1e999" |}, None)
  else if String.eqb b (api_document "north" "2.25") then
    ({| data_Latitude := "north"; data_Longitude := "2.25" |}, None)
  else if String.eqb b (api_document "48.5" "east") then
    ({| data_Latitude := "48.5"; data_Longitude := "east" |}, None)
  else
    (data, Some (jsonError "invalid character")).

Definition table_ParseFloat (s : string) (bitSize : Z)
  : float * option error :=
  if String.eqb s "48.5" then (48.5%float, None)
  else if String.eqb s "2.25" then (2.25%float, None)
  else if String.eqb s "1e999" then
    (infinity, Some (NumError "ParseFloat" s ErrRange))
  else if String.eqb s "north" then
    (0%float, Some (NumError "ParseFloat" s ErrSyntax))
  else if String.eqb s "east" then
    (0%float, Some (NumError "ParseFloat" s ErrSyntax))
  else (0%float, Some (NumError "ParseFloat" s ErrSyntax)).

Definition table_lib : GoLib := {|
  json_Unmarshal := table_json_Unmarshal;
  strconv_ParseFloat := table_ParseFloat;
|}.

(** A receiver that already holds coordinates. *)
Definition somewhere : Coordinates :=
  {| Latitude := 1%float; Longitude := 2%float |}.

(** ** Sample values *)

Definition gare_de_lyon : StopArea :=
  Build_StopArea "stop_area:OIF:SA:8768600" "Gare de Lyon"
    "Gare de Lyon (Paris)"
    {| Latitude := 48.5%float; Longitude := 2.25%float |} [] [].

(** A container that holds a stop area, as the API sends it. *)
Definition at_gare_de_lyon : PlaceCountainer := {|
  pc_ID := "stop_area:OIF:SA:8768600";
  pc_Name := "Gare de Lyon (Paris)";
  pc_Quality := 90%N;
  pc_EmbeddedType := "stop_area";
  pc_StopArea := ptr_to 1%positive gare_de_lyon;
  pc_POI := nilptr;
  pc_Address := nilptr;
  pc_StopPoint := nilptr;
  pc_AdministrativeRegion := nilptr;
|}.

(** A container whose discriminant is none of the five. *)
Definition at_unknown : PlaceCountainer := {|
  pc_ID := "line:OIF:100110001";
  pc_Name := "Metro 1";
  pc_Quality := 0%N;
  pc_EmbeddedType := "line";
  pc_StopArea := nilptr;
  pc_POI := nilptr;
  pc_Address := nilptr;
  pc_StopPoint := nilptr;
  pc_AdministrativeRegion := nilptr;
|}.

(** A container with a discriminant and no variant. *)
Definition stop_area_missing : PlaceCountainer := {|
  pc_ID := EmptyString;
  pc_Name := EmptyString;
  pc_Quality := 0%N;
  pc_EmbeddedType := "stop_area";
  pc_StopArea := nilptr;
  pc_POI := nilptr;
  pc_Address := nilptr;
  pc_StopPoint := nilptr;
  pc_AdministrativeRegion := nilptr;
|}.

(** Case analysis on the discriminant, as the [switch] does it. *)
Ltac switch_EmbeddedType pc :=
  repeat match goal with
         | |- context [String.eqb (pc_EmbeddedType pc) ?s] =>
             destruct (String.eqb_spec (pc_EmbeddedType pc) s)
         end.

(** ** Sections *)

(** [type SectionType string] and its eleven constants. *)
Definition SectionType : Type := string.

Definition SectionPublicTransport : SectionType := "public_transport".
Definition SectionStreetNetwork : SectionType := "street_network".
Definition SectionWaiting : SectionType := "waiting".
Definition SectionStayIn : SectionType := "stay_in".
Definition SectionTransfer : SectionType := "transfer".
Definition SectionCrowFly : SectionType := "crow_fly".
Definition SectionOnDemandTransport : SectionType := "on_demand_transport".
Definition SectionBikeShareRent : SectionType := "bss_rent".
Definition SectionBikeSharePutBack : SectionType := "bss_put_back".
Definition SectionBoarding : SectionType := "boarding".
Definition SectionLanding : SectionType := "landing".

(** [var SectionTypes = map[SectionType]string{...}] *)
Definition SectionTypes : gmap string string :=
  <[SectionPublicTransport := "Public transport section"]> (
  <[SectionStreetNetwork := "Street section"]> (
  <[SectionWaiting := "Waiting section between transport"]> (
  <[SectionStayIn := "This “stay in the vehicle” section occurs when the traveller has to stay in the vehicle when the bus change its routing."]> (
  <[SectionTransfer := "Transfer section"]> (
  <[SectionCrowFly := "Teleportation section. Used when starting or arriving to a city or a stoparea (“potato shaped” objects) Useful to make navitia idempotent"]> (
  <[SectionOnDemandTransport := "Vehicle may not drive along: traveler will have to call agency to confirm journey"]> (
  <[SectionBikeShareRent := "Taking a bike from a bike sharing system (bss)"]> (
  <[SectionBikeSharePutBack := "Putting back a bike from a bike sharing system (bss)"]> (
  <[SectionBoarding := "Boarding on plane"]> (
  <[SectionLanding := "Landing off the plane"]> ∅)))))))))).

(** [SectionTypes[t]]: the empty string for a key that is absent. *)
Definition SectionTypes_index (t : SectionType) : string :=
  default EmptyString (SectionTypes !! t).

(** The eleven constants, in the order of their declaration. *)
Definition section_type_constants : list SectionType :=
  [SectionPublicTransport; SectionStreetNetwork; SectionWaiting;
   SectionStayIn; SectionTransfer; SectionCrowFly;
   SectionOnDemandTransport; SectionBikeShareRent;
   SectionBikeSharePutBack; SectionBoarding; SectionLanding].

(** ** More on strings *)

(** [strings.Join(elems, sep)]: the elements with [sep] between them. *)
Fixpoint strings_Join (elems : list string) (sep : string) : string :=
  match elems with
  | [] => EmptyString
  | x :: xs =>
      match xs with
      | [] => x
      | _ :: _ => x ++ sep ++ strings_Join xs sep
      end
  end.

(** ** More sample values *)

(** The same stop area in a container with another ID, name and quality. *)
Definition at_gare_de_lyon_renamed : PlaceCountainer := {|
  pc_ID := "stop_area:OIF:SA:0";
  pc_Name := "Lyon";
  pc_Quality := 10%N;
  pc_EmbeddedType := "stop_area";
  pc_StopArea := ptr_to 1%positive gare_de_lyon;
  pc_POI := nilptr;
  pc_Address := nilptr;
  pc_StopPoint := nilptr;
  pc_AdministrativeRegion := nilptr;
|}.

(** A library whose decoder is given a document that is no JSON; the
    parser is the one of the table above. *)
Definition not_json : string := "not json".

Definition refusing_json_Unmarshal (b : string) (data : coordData)
  : coordData * option error :=
  if String.eqb b not_json then
    (data, Some (jsonError "invalid character 'o' in literal null (expecting 'u')"))
  else table_json_Unmarshal b data.

Definition refusing_lib : GoLib := {|
  json_Unmarshal := refusing_json_Unmarshal;
  strconv_ParseFloat := table_ParseFloat;
|}.

(** ** Encoding coordinates *)

(** Modelled from the spec: the encoder of coordinates is the API's, not
    code of the package. The spec has a [Coordinates] value encoded to the
    API's string-pair JSON format: the object of [api_document], whose two
    strings are the latitude and the longitude as [FormatFloat] prints
    them. The printer of floats is left open. *)
Definition Coordinates_encode (FormatFloat : float -> string)
    (c : Coordinates) : string :=
  api_document (FormatFloat (Latitude c)) (FormatFloat (Longitude c)).

(** [strconv.FormatFloat(f, 'f', -1, 64)] on the two floats of the
    examples, as a table; no example reads its last line. *)
Definition table_FormatFloat (f : float) : string :=
  if PrimFloat.eqb f 48.5 then "48.5"
  else if PrimFloat.eqb f 2.25 then "2.25"
  else "NaN".

(** Coordinates the tables can print and parse. *)
Definition paris : Coordinates :=
  {| Latitude := 48.5%float; Longitude := 2.25%float |}.

(** * Properties *)

(** ** Strings *)

Lemma strings_Split_nonempty (s : string) (sep : ascii) :
  strings_Split s sep <> [].
Proof.
  destruct s as [|c s]; simpl; [discriminate|].
  destruct (Ascii.eqb c sep); [discriminate|].
  destruct (strings_Split s sep); discriminate.
Qed.

(** The first element of [strings.Split(s, sep)] is the part of [s] before
    the first [sep]: it holds no [sep], and what follows it in [s] is
    nothing or starts with [sep]. *)
Lemma strings_Split_head (s : string) (sep : ascii) :
  exists prefix rest tl,
    strings_Split s sep = prefix :: tl
    /\ s = (prefix ++ rest)%string
    /\ no_byte sep prefix
    /\ (rest = EmptyString \/ exists r, rest = String sep r).
Proof.
  induction s as [|c s IH]; simpl.
  - exists EmptyString, EmptyString, []. simpl. auto.
  - destruct (Ascii.eqb_spec c sep) as [->|Hne].
    + exists EmptyString, (String sep s), (strings_Split s sep).
      simpl. eauto 6.
    + destruct IH as (prefix & rest & tl & -> & -> & Hno & Hrest).
      exists (String c prefix), rest, tl. simpl. auto.
Qed.

(** ** ID *)

Lemma typeNames_known (s : string) :
  map_index typeNames s = true <-> In s known_type_names.
Proof.
  unfold map_index, typeNames, known_type_names.
  repeat (rewrite lookup_insert; case_decide;
          [subst; simpl; tauto|]).
  rewrite lookup_empty. simpl. intuition congruence.
Qed.

(** C4. [ID.Type] looks at the part of the ID before its first colon (the
    whole ID when it has no colon): it returns that part when it is one of
    the nine known type names, and the empty string for every other ID. *)
Theorem ID_Type_known_prefix (id : ID) :
  exists prefix rest : string,
    id = (prefix ++ rest)%string
    /\ no_byte ":" prefix
    /\ (rest = EmptyString \/ exists r, rest = String ":" r)
    /\ (In prefix known_type_names -> ID_Type id = prefix)
    /\ (~ In prefix known_type_names -> ID_Type id = EmptyString).
Proof.
  destruct (strings_Split_head id ":") as (prefix & rest & tl & Hs & Hid & Hno & Hrest).
  exists prefix, rest.
  repeat split; try assumption; unfold ID_Type; rewrite Hs; intros Hin.
  - apply typeNames_known in Hin. now rewrite Hin.
  - destruct (map_index typeNames prefix) eqn:Hm; [|reflexivity].
    apply typeNames_known in Hm. contradiction.
Qed.

Example ID_Type_examples :
  ID_Type "line:RATP:M1" = "line"
  /\ ID_Type "stop_area" = "stop_area"
  /\ ID_Type "poi:osm:42" = EmptyString
  /\ ID_Type ":line" = EmptyString
  /\ ID_Type EmptyString = EmptyString.
Proof. repeat split; vm_compute; reflexivity. Qed.

(** A result that is not empty is always one of the nine names. *)
Corollary ID_Type_result (id : ID) :
  ID_Type id = EmptyString \/ In (ID_Type id) known_type_names.
Proof.
  unfold ID_Type.
  destruct (strings_Split id ":") as [|possible tl]; [now left|].
  destruct (map_index typeNames possible) eqn:Hm; [right|now left].
  now apply typeNames_known.
Qed.

(** C5. [ID.Check] returns an error on the empty ID, and [nil] on every ID
    that is not empty. *)
Theorem ID_Check_rejects_only_empty :
  ID_Check EmptyString <> None
  /\ forall id : ID, id <> EmptyString -> ID_Check id = None.
Proof.
  split; [discriminate|].
  intros [|c s] Hne; [contradiction|reflexivity].
Qed.

Lemma ID_Check_rejects_only_empty_witness :
  ID_Check EmptyString <> None /\ ID_Check "stop_area:OIF:SA:8775860" = None.
Proof.
  split.
  - apply ID_Check_rejects_only_empty.
  - apply ID_Check_rejects_only_empty. discriminate.
Defined.

(** [Check] fails on the empty ID only. *)
Lemma ID_Check_error_iff (id : ID) :
  ID_Check id <> None <-> id = EmptyString.
Proof.
  destruct id as [|c s]; simpl; split; intro H0;
    try reflexivity; try discriminate; try (now elim H0).
Qed.

(** ** Places *)

Lemma ptr_eqb_nil {T : Type} (p : ptr T) :
  ptr_eqb p nilptr = true <-> p = nilptr.
Proof. destruct p; simpl; split; congruence. Qed.

(** Comparing with the zero value decides equality with it. *)
Lemma PlaceCountainer_eqb_empty (pc : PlaceCountainer) :
  PlaceCountainer_eqb pc empty = true <-> pc = empty.
Proof.
  destruct pc as [i n q e sa poi add sp ar].
  unfold PlaceCountainer_eqb, empty; simpl.
  rewrite !andb_true_iff, !String.eqb_eq, N.eqb_eq, !ptr_eqb_nil.
  split.
  - intros [[[[[[[[-> ->] ->] ->] ->] ->] ->] ->] ->]. reflexivity.
  - intros H; injection H as -> -> -> -> -> -> -> -> ->. repeat split.
Qed.

Lemma PlaceCountainer_neq_empty (pc : PlaceCountainer) :
  pc <> empty -> PlaceCountainer_eqb pc empty = false.
Proof.
  intros Hne. destruct (PlaceCountainer_eqb pc empty) eqn:He; [|reflexivity].
  apply PlaceCountainer_eqb_empty in He. contradiction.
Qed.

(** A container with a discriminant is not the zero value. *)
Lemma EmbeddedType_neq_empty (pc : PlaceCountainer) :
  pc_EmbeddedType pc <> EmptyString -> pc <> empty.
Proof. intros Hne ->. apply Hne. reflexivity. Qed.

Lemma recognized_neq_empty (pc : PlaceCountainer) :
  In (pc_EmbeddedType pc) recognized -> pc <> empty.
Proof.
  intros Hin. apply EmbeddedType_neq_empty. intros He. rewrite He in Hin.
  simpl in Hin. intuition discriminate.
Qed.

Lemma is_nilptr_false {T : Type} (p : ptr T) :
  is_nilptr p = false <-> p <> nilptr.
Proof. destruct p; simpl; split; congruence. Qed.

(** C3. [Place] on the zero-valued container returns a nil [Place] and a
    nil error. *)
Theorem Place_of_empty :
  PlaceCountainer_Place empty = (Place_nil, None).
Proof. reflexivity. Qed.

(** C1. When the discriminant is one of the five and the variant field
    that goes with it is not nil, [Place] returns that field as the
    [Place], and a nil error. *)
Theorem Place_returns_populated_variant (pc : PlaceCountainer) :
  (pc_EmbeddedType pc = "stop_area" -> pc_StopArea pc <> nilptr ->
   PlaceCountainer_Place pc = (Place_StopArea (pc_StopArea pc), None))
  /\ (pc_EmbeddedType pc = "poi" -> pc_POI pc <> nilptr ->
      PlaceCountainer_Place pc = (Place_POI (pc_POI pc), None))
  /\ (pc_EmbeddedType pc = "address" -> pc_Address pc <> nilptr ->
      PlaceCountainer_Place pc = (Place_Address (pc_Address pc), None))
  /\ (pc_EmbeddedType pc = "stop_point" -> pc_StopPoint pc <> nilptr ->
      PlaceCountainer_Place pc = (Place_StopPoint (pc_StopPoint pc), None))
  /\ (pc_EmbeddedType pc = "administrative_region" ->
      pc_AdministrativeRegion pc <> nilptr ->
      PlaceCountainer_Place pc
      = (Place_AdministrativeRegion (pc_AdministrativeRegion pc), None)).
Proof.
  repeat split; intros He _; unfold PlaceCountainer_Place;
    (rewrite PlaceCountainer_neq_empty;
     [| apply EmbeddedType_neq_empty; rewrite He; discriminate]);
    rewrite He; reflexivity.
Qed.

Lemma Place_returns_populated_variant_witness :
  PlaceCountainer_Place at_gare_de_lyon
  = (Place_StopArea (ptr_to 1%positive gare_de_lyon), None).
Proof.
  apply (proj1 (Place_returns_populated_variant at_gare_de_lyon)).
  - reflexivity.
  - discriminate.
Defined.

(** C2. On a container that is not the zero value and whose discriminant
    is none of the five, [Place] returns a nil [Place] and an error. *)
Theorem Place_unknown_discriminant (pc : PlaceCountainer) :
  pc <> empty ->
  ~ In (pc_EmbeddedType pc) recognized ->
  fst (PlaceCountainer_Place pc) = Place_nil
  /\ snd (PlaceCountainer_Place pc) <> None.
Proof.
  intros Hne Hnot. unfold PlaceCountainer_Place.
  rewrite (PlaceCountainer_neq_empty pc Hne).
  switch_EmbeddedType pc;
    try (exfalso; apply Hnot;
         match goal with e : pc_EmbeddedType pc = _ |- _ => rewrite e end;
         unfold recognized; simpl; tauto).
  simpl. split; [reflexivity|discriminate].
Qed.

Lemma Place_unknown_discriminant_witness :
  fst (PlaceCountainer_Place at_unknown) = Place_nil
  /\ snd (PlaceCountainer_Place at_unknown) <> None.
Proof.
  apply (Place_unknown_discriminant at_unknown).
  - discriminate.
  - unfold recognized, at_unknown; simpl.
    intros [H|[H|[H|[H|[H|[]]]]]]; discriminate H.
Defined.

(** The error of C2 quotes the discriminant found. *)
Lemma Place_unknown_discriminant_message (pc : PlaceCountainer) :
  pc <> empty ->
  ~ In (pc_EmbeddedType pc) recognized ->
  snd (PlaceCountainer_Place pc)
  = Some (fundamental ("No known embedded type indicated (we have "
                       ++ dquote ++ pc_EmbeddedType pc ++ dquote
                       ++ "), can't return a place !")).
Proof.
  intros Hne Hnot. unfold PlaceCountainer_Place.
  rewrite (PlaceCountainer_neq_empty pc Hne).
  switch_EmbeddedType pc;
    try (exfalso; apply Hnot;
         match goal with e : pc_EmbeddedType pc = _ |- _ => rewrite e end;
         unfold recognized; simpl; tauto).
  reflexivity.
Qed.

(** What the code does where a discriminant has no variant. On a
    container that is not the zero value, whose discriminant is one of the
    five and whose variant field for it is nil, [Place] returns a nil
    error, and as [Place] an interface value that holds the nil pointer of
    the variant's type: that value is not the nil interface, which is
    what the documentation of [Place] and its two other ways out without
    a place return. *)
Theorem Place_missing_variant (pc : PlaceCountainer) :
  pc <> empty ->
  In (pc_EmbeddedType pc) recognized ->
  variant_is_nil pc = true ->
  snd (PlaceCountainer_Place pc) = None
  /\ Place_is_nil (fst (PlaceCountainer_Place pc)) = false
  /\ ((pc_EmbeddedType pc = "stop_area"
       /\ fst (PlaceCountainer_Place pc) = Place_StopArea nilptr)
      \/ (pc_EmbeddedType pc = "poi"
          /\ fst (PlaceCountainer_Place pc) = Place_POI nilptr)
      \/ (pc_EmbeddedType pc = "address"
          /\ fst (PlaceCountainer_Place pc) = Place_Address nilptr)
      \/ (pc_EmbeddedType pc = "stop_point"
          /\ fst (PlaceCountainer_Place pc) = Place_StopPoint nilptr)
      \/ (pc_EmbeddedType pc = "administrative_region"
          /\ fst (PlaceCountainer_Place pc)
             = Place_AdministrativeRegion nilptr)).
Proof.
  intros Hne Hin Hv. revert Hv.
  unfold variant_is_nil, PlaceCountainer_Place.
  rewrite (PlaceCountainer_neq_empty pc Hne).
  switch_EmbeddedType pc.
  - destruct (pc_StopArea pc); [|discriminate]. simpl. tauto.
  - destruct (pc_POI pc); [|discriminate]. simpl. tauto.
  - destruct (pc_Address pc); [|discriminate]. simpl. tauto.
  - destruct (pc_StopPoint pc); [|discriminate]. simpl. tauto.
  - destruct (pc_AdministrativeRegion pc); [|discriminate]. simpl. tauto.
  - exfalso. unfold recognized in Hin. simpl in Hin.
    intuition congruence.
Qed.

Lemma Place_missing_variant_witness :
  snd (PlaceCountainer_Place stop_area_missing) = None
  /\ Place_is_nil (fst (PlaceCountainer_Place stop_area_missing)) = false.
Proof.
  destruct (Place_missing_variant stop_area_missing) as (Herr & Hnil & _).
  - discriminate.
  - unfold recognized, stop_area_missing; simpl. left. reflexivity.
  - reflexivity.
  - split; assumption.
Defined.

(** C8. The code departs from it. With the discriminant "stop_area" and
    no stop area, in a container that is not the zero value, [Place]
    returns a nil error, but the [Place] it returns is not nil: it holds a
    nil pointer to a stop area, and calling a method on it panics. On the
    zero value and on an unknown discriminant, the two other ways out
    without a place, the [Place] returned is nil. *)
Theorem Place_missing_variant_typed_nil :
  stop_area_missing <> empty
  /\ In (pc_EmbeddedType stop_area_missing) recognized
  /\ variant_is_nil stop_area_missing = true
  /\ PlaceCountainer_Place stop_area_missing = (Place_StopArea nilptr, None)
  /\ PlaceCountainer_Place stop_area_missing <> (Place_nil, None)
  /\ Place_is_nil (fst (PlaceCountainer_Place stop_area_missing)) = false
  /\ Place_PlaceType (fst (PlaceCountainer_Place stop_area_missing)) = None
  /\ Place_PlaceID (fst (PlaceCountainer_Place stop_area_missing)) = None
  /\ Place_PlaceName (fst (PlaceCountainer_Place stop_area_missing)) = None
  /\ fst (PlaceCountainer_Place empty) = Place_nil
  /\ fst (PlaceCountainer_Place at_unknown) = Place_nil.
Proof.
  split; [discriminate|]. split.
  { unfold recognized, stop_area_missing; simpl. left. reflexivity. }
  split; [reflexivity|]. split; [reflexivity|]. split; [discriminate|].
  repeat split.
Qed.

(** Calling a method on such a [Place] dereferences the nil pointer. *)
Lemma Place_missing_variant_panics (pc : PlaceCountainer) :
  pc <> empty ->
  In (pc_EmbeddedType pc) recognized ->
  variant_is_nil pc = true ->
  Place_PlaceType (fst (PlaceCountainer_Place pc)) = None.
Proof.
  intros Hne Hin Hv. revert Hv.
  unfold variant_is_nil, PlaceCountainer_Place.
  rewrite (PlaceCountainer_neq_empty pc Hne).
  switch_EmbeddedType pc;
    try match goal with
        | |- is_nilptr ?p = true -> _ =>
            destruct p; [reflexivity|discriminate]
        end.
  exfalso. unfold recognized in Hin. simpl in Hin. intuition congruence.
Qed.

(** C10. When the discriminant is one of the five and its variant field is
    not nil, the [Place] returned has the discriminant as its
    [PlaceType()]; each variant's [PlaceType()] is a constant. *)
Theorem Place_PlaceType_is_EmbeddedType (pc : PlaceCountainer) :
  pc <> empty ->
  In (pc_EmbeddedType pc) recognized ->
  variant_is_nil pc = false ->
  Place_PlaceType (fst (PlaceCountainer_Place pc))
  = Some (pc_EmbeddedType pc)
  /\ (forall sa, StopArea_PlaceType sa = "stop_area")
  /\ (forall poi, POI_PlaceType poi = "poi")
  /\ (forall add, Address_PlaceType add = "address")
  /\ (forall sp, StopPoint_PlaceType sp = "stop_point")
  /\ (forall ar, AdministrativeRegion_PlaceType ar
                 = "administrative_region").
Proof.
  intros Hne Hin Hv. split; [|repeat split]. revert Hv.
  unfold variant_is_nil, PlaceCountainer_Place.
  rewrite (PlaceCountainer_neq_empty pc Hne).
  switch_EmbeddedType pc;
    try match goal with e : pc_EmbeddedType pc = _ |- _ => rewrite e end.
  - destruct (pc_StopArea pc); [discriminate|reflexivity].
  - destruct (pc_POI pc); [discriminate|reflexivity].
  - destruct (pc_Address pc); [discriminate|reflexivity].
  - destruct (pc_StopPoint pc); [discriminate|reflexivity].
  - destruct (pc_AdministrativeRegion pc); [discriminate|reflexivity].
  - discriminate.
Qed.

Lemma Place_PlaceType_is_EmbeddedType_witness :
  Place_PlaceType (fst (PlaceCountainer_Place at_gare_de_lyon))
  = Some "stop_area".
Proof.
  apply (Place_PlaceType_is_EmbeddedType at_gare_de_lyon).
  - discriminate.
  - unfold recognized, at_gare_de_lyon; simpl. left. reflexivity.
  - reflexivity.
Defined.

(** ** Coordinates *)

(** The document does not decode: the receiver is left as it was, and the
    error of the decoder is wrapped. *)
Lemma UnmarshalJSON_bad_document `{GoLib} (c : Coordinates) (b : string) :
  snd (decoded b) <> None ->
  Coordinates_UnmarshalJSON c b
  = (c, errors_Wrap (snd (decoded b)) "Error while unmarshalling journey").
Proof. unmarshal_cases b; first [congruence | intros; reflexivity]. Qed.

(** The longitude does not parse: the float returned with the error is
    stored all the same, and the latitude is not looked at. *)
Lemma UnmarshalJSON_bad_lon `{GoLib} (c : Coordinates) (b : string) :
  snd (decoded b) = None -> snd (parsed_lon b) <> None ->
  Coordinates_UnmarshalJSON c b
  = ({| Latitude := Latitude c; Longitude := fst (parsed_lon b) |},
     Some (UnmarshalError "Coordinates" "lon" "Longitude"
             (data_Longitude (fst (decoded b)))
             "error in strconv.ParseFloat" (snd (parsed_lon b)) b)).
Proof. unmarshal_cases b; first [congruence | intros; reflexivity]. Qed.

(** The longitude parses and the latitude does not: both fields have been
    overwritten. *)
Lemma UnmarshalJSON_bad_lat `{GoLib} (c : Coordinates) (b : string) :
  snd (decoded b) = None -> snd (parsed_lon b) = None ->
  snd (parsed_lat b) <> None ->
  Coordinates_UnmarshalJSON c b
  = ({| Latitude := fst (parsed_lat b); Longitude := fst (parsed_lon b) |},
     Some (UnmarshalError "Coordinates" "lat" "Latitude"
             (data_Latitude (fst (decoded b)))
             "error in strconv.ParseFloat" (snd (parsed_lat b)) b)).
Proof. unmarshal_cases b; first [congruence | intros; reflexivity]. Qed.

(** Everything goes through: both fields hold the parsed floats. *)
Lemma UnmarshalJSON_ok `{GoLib} (c : Coordinates) (b : string) :
  snd (decoded b) = None -> snd (parsed_lon b) = None ->
  snd (parsed_lat b) = None ->
  Coordinates_UnmarshalJSON c b
  = ({| Latitude := fst (parsed_lat b); Longitude := fst (parsed_lon b) |},
     None).
Proof. unmarshal_cases b; first [congruence | intros; reflexivity]. Qed.

(** C6, as the code has it. [UnmarshalJSON] returns [nil] exactly when the
    document decodes and both strings parse, and the receiver then holds
    the two parsed floats. The longitude is parsed first. When a string
    does not parse, the error names its field, and the receiver's field
    has been overwritten with the float that [strconv.ParseFloat] returned
    with its error; a longitude that fails leaves the latitude as it was. *)
Theorem UnmarshalJSON_result `{GoLib} (c : Coordinates) (b : string) :
  let r := Coordinates_UnmarshalJSON c b in
  (snd r = None <->
   snd (decoded b) = None /\ snd (parsed_lon b) = None
   /\ snd (parsed_lat b) = None)
  /\ (snd r = None ->
      fst r = {| Latitude := fst (parsed_lat b);
                 Longitude := fst (parsed_lon b) |})
  /\ (snd (decoded b) = None -> snd (parsed_lon b) <> None ->
      named_field (snd r) = Some ("Longitude", "lon")
      /\ fst r = {| Latitude := Latitude c;
                    Longitude := fst (parsed_lon b) |})
  /\ (snd (decoded b) = None -> snd (parsed_lon b) = None ->
      snd (parsed_lat b) <> None ->
      named_field (snd r) = Some ("Latitude", "lat")
      /\ fst r = {| Latitude := fst (parsed_lat b);
                    Longitude := fst (parsed_lon b) |}).
Proof.
  cbv zeta.
  destruct (snd (decoded b)) as [e|] eqn:Hd.
  { rewrite UnmarshalJSON_bad_document by (rewrite Hd; discriminate).
    rewrite Hd. simpl. repeat split; intros; intuition congruence. }
  destruct (snd (parsed_lon b)) as [e|] eqn:Hlon.
  { rewrite UnmarshalJSON_bad_lon by (rewrite ?Hlon; congruence).
    rewrite Hlon. simpl. repeat split; intros; intuition congruence. }
  destruct (snd (parsed_lat b)) as [e|] eqn:Hlat.
  { rewrite UnmarshalJSON_bad_lat by (rewrite ?Hlat; congruence).
    rewrite Hlat. simpl. repeat split; intros; intuition congruence. }
  rewrite UnmarshalJSON_ok by assumption.
  simpl. repeat split; intros; intuition congruence.
Qed.

Lemma UnmarshalJSON_result_witness :
  named_field
    (snd (@Coordinates_UnmarshalJSON table_lib somewhere
            (api_document "48.5" "east")))
  = Some ("Longitude", "lon").
Proof.
  destruct (@UnmarshalJSON_result table_lib somewhere
              (api_document "48.5" "east")) as (_ & _ & Hlon & _).
  apply Hlon.
  - reflexivity.
  - discriminate.
Defined.

(** C6, as stated, fails: a longitude out of range does not parse, and the
    infinity that [strconv.ParseFloat] returns with its error is stored in
    the receiver, whose longitude was 2. *)
Lemma UnmarshalJSON_failed_parse_is_stored :
  let r := @Coordinates_UnmarshalJSON table_lib somewhere
             (api_document "48.5" "1e999") in
  snd (@parsed_lon table_lib (api_document "48.5" "1e999")) <> None
  /\ snd r <> None
  /\ named_field (snd r) = Some ("Longitude", "lon")
  /\ Longitude (fst r) = infinity
  /\ Longitude (fst r) <> Longitude somewhere.
Proof.
  cbv zeta. split; [discriminate|]. split; [discriminate|].
  split; [reflexivity|]. split; [reflexivity|].
  intros Heq. apply (f_equal PrimFloat.is_infinity) in Heq.
  vm_compute in Heq. discriminate Heq.
Qed.

(** The same with a longitude that is no number: the receiver's longitude
    is reset to 0. *)
Example UnmarshalJSON_failed_parse_resets :
  let r := @Coordinates_UnmarshalJSON table_lib somewhere
             (api_document "48.5" "east") in
  snd r <> None
  /\ Longitude (fst r) = 0%float
  /\ Latitude (fst r) = Latitude somewhere.
Proof. cbv zeta. repeat split. discriminate. Qed.

(** C9. [UnmarshalJSON] is not atomic: when the longitude parses and the
    latitude does not, it returns an error, and the receiver's longitude
    has been overwritten with the parsed longitude. *)
Theorem UnmarshalJSON_not_atomic `{GoLib} (c : Coordinates) (b : string) :
  snd (decoded b) = None ->
  snd (parsed_lon b) = None ->
  snd (parsed_lat b) <> None ->
  snd (Coordinates_UnmarshalJSON c b) <> None
  /\ Longitude (fst (Coordinates_UnmarshalJSON c b)) = fst (parsed_lon b).
Proof.
  intros Hd Hlon Hlat. rewrite UnmarshalJSON_bad_lat by assumption.
  simpl. split; [discriminate|reflexivity].
Qed.

Lemma UnmarshalJSON_not_atomic_witness :
  let r := @Coordinates_UnmarshalJSON table_lib somewhere
             (api_document "north" "2.25") in
  snd r <> None /\ Longitude (fst r) = 2.25%float.
Proof.
  cbv zeta.
  destruct (@UnmarshalJSON_not_atomic table_lib somewhere
              (api_document "north" "2.25")) as [Herr Hlon].
  - reflexivity.
  - reflexivity.
  - discriminate.
  - split; [exact Herr|exact Hlon].
Defined.

(** In that run the receiver held the longitude 2 before the call. *)
Example UnmarshalJSON_not_atomic_changed :
  let r := @Coordinates_UnmarshalJSON table_lib somewhere
             (api_document "north" "2.25") in
  PrimFloat.eqb (Longitude somewhere) 2 = true
  /\ PrimFloat.eqb (Longitude (fst r)) (Longitude somewhere) = false.
Proof. cbv zeta. split; vm_compute; reflexivity. Qed.

(** A document that decodes and parses. *)
Example UnmarshalJSON_paris :
  @Coordinates_UnmarshalJSON table_lib somewhere (api_document "48.5" "2.25")
  = ({| Latitude := 48.5%float; Longitude := 2.25%float |}, None).
Proof. reflexivity. Qed.

(** * Further properties *)

(** ** Splitting *)

Lemma strings_Join_cons (c : ascii) (x : string) (xs : list string)
    (sep : string) :
  strings_Join (String c x :: xs) sep = String c (strings_Join (x :: xs) sep).
Proof. destruct xs; reflexivity. Qed.

Lemma strings_Split_pieces (s : string) (sep : ascii) :
  Forall (no_byte sep) (strings_Split s sep).
Proof.
  induction s as [|c s IH]; simpl.
  - repeat constructor.
  - destruct (Ascii.eqb_spec c sep) as [->|Hne].
    + constructor; [exact I|exact IH].
    + destruct (strings_Split s sep) as [|x xs]; [repeat constructor; auto|].
      inversion IH; subst. constructor; [split; assumption|assumption].
Qed.

Lemma strings_Join_Split (s : string) (sep : ascii) :
  strings_Join (strings_Split s sep) (String sep EmptyString) = s.
Proof.
  induction s as [|c s IH]; simpl; [reflexivity|].
  destruct (Ascii.eqb_spec c sep) as [->|Hne].
  - destruct (strings_Split s sep) as [|x xs] eqn:Hs.
    + now apply strings_Split_nonempty in Hs.
    + simpl in *. now rewrite IH.
  - destruct (strings_Split s sep) as [|x xs] eqn:Hs.
    + now apply strings_Split_nonempty in Hs.
    + rewrite strings_Join_cons. now rewrite IH.
Qed.

(** What precedes the first separator is the first piece. *)
Lemma strings_Split_app_sep (p r : string) (sep : ascii) :
  no_byte sep p ->
  strings_Split (p ++ String sep r) sep = p :: strings_Split r sep.
Proof.
  induction p as [|a p IH]; simpl.
  - intros _. now rewrite Ascii.eqb_refl.
  - intros [Hne Hno]. apply Ascii.eqb_neq in Hne. rewrite Hne.
    now rewrite (IH Hno).
Qed.

Lemma strings_Split_no_sep (p : string) (sep : ascii) :
  no_byte sep p -> strings_Split p sep = [p].
Proof.
  induction p as [|a p IH]; simpl; [reflexivity|].
  intros [Hne Hno]. apply Ascii.eqb_neq in Hne. rewrite Hne.
  now rewrite (IH Hno).
Qed.

(** X1. The pieces [ID.Type] gets from [strings.Split] are never none, so
    its first [return] is never taken; no piece holds a colon, and the
    pieces joined with colons are the ID again. *)
Theorem ID_Type_split_pieces (id : ID) :
  (0 < length (strings_Split id ":"))%nat
  /\ Forall (no_byte ":") (strings_Split id ":")
  /\ strings_Join (strings_Split id ":") ":" = id.
Proof.
  split; [|split].
  - destruct (strings_Split id ":") as [|x xs] eqn:Hs; simpl; [|lia].
    now apply strings_Split_nonempty in Hs.
  - apply strings_Split_pieces.
  - apply strings_Join_Split.
Qed.

(** ** ID *)

(** X2. [ID.Type] looks at nothing after the first colon. *)
Theorem ID_Type_ignores_suffix (prefix rest : string) :
  no_byte ":" prefix ->
  ID_Type (prefix ++ String ":" rest)%string = ID_Type prefix.
Proof.
  intros Hno. unfold ID_Type.
  rewrite (strings_Split_app_sep _ _ _ Hno), (strings_Split_no_sep _ _ Hno).
  reflexivity.
Qed.

Lemma ID_Type_ignores_suffix_witness :
  ID_Type ("line" ++ String ":" "RATP:M1")%string = ID_Type "line".
Proof.
  apply ID_Type_ignores_suffix. simpl. repeat split; discriminate.
Defined.

(** X3. The type of an ID, read as an ID, is its own type. *)
Theorem ID_Type_idempotent (id : ID) :
  ID_Type (ID_Type id) = ID_Type id.
Proof.
  destruct (ID_Type_result id) as [->|Hin]; [reflexivity|].
  unfold known_type_names in Hin. simpl in Hin.
  repeat (destruct Hin as [<-|Hin]; [reflexivity|]).
  contradiction.
Qed.

(** X4. An ID in which [Type] finds a type passes [Check]. *)
Theorem ID_Type_found_Check_passes (id : ID) :
  ID_Type id <> EmptyString -> ID_Check id = None.
Proof.
  destruct id as [|c s]; [|reflexivity].
  intros Hne. exfalso. apply Hne. reflexivity.
Qed.

Lemma ID_Type_found_Check_passes_witness :
  ID_Check "physical_mode:Metro" = None.
Proof.
  apply ID_Type_found_Check_passes. vm_compute. discriminate.
Defined.

(** X5. Of the five place types, [ID.Type] knows two: an ID that starts
    with the [PlaceType()] of a stop area or of a stop point and a colon
    has that type; one that starts with the [PlaceType()] of a POI, an
    address or an administrative region has none. *)
Theorem ID_Type_of_place_types (rest : string) :
  (forall sa, ID_Type (StopArea_PlaceType sa ++ String ":" rest)%string
              = StopArea_PlaceType sa)
  /\ (forall sp, ID_Type (StopPoint_PlaceType sp ++ String ":" rest)%string
                 = StopPoint_PlaceType sp)
  /\ (forall poi, ID_Type (POI_PlaceType poi ++ String ":" rest)%string
                  = EmptyString)
  /\ (forall add, ID_Type (Address_PlaceType add ++ String ":" rest)%string
                  = EmptyString)
  /\ (forall ar, ID_Type (AdministrativeRegion_PlaceType ar
                          ++ String ":" rest)%string
                 = EmptyString).
Proof.
  repeat split; intros v; unfold ID_Type;
    unfold StopArea_PlaceType, StopPoint_PlaceType, POI_PlaceType,
      Address_PlaceType, AdministrativeRegion_PlaceType;
    (rewrite strings_Split_app_sep by (simpl; repeat split; discriminate));
    reflexivity.
Qed.

(** ** Places *)

(** The six ways out of [Place]. *)
Lemma Place_cases (pc : PlaceCountainer) :
  (pc = empty /\ PlaceCountainer_Place pc = (Place_nil, None))
  \/ (pc <> empty /\ pc_EmbeddedType pc = "stop_area"
      /\ PlaceCountainer_Place pc = (Place_StopArea (pc_StopArea pc), None))
  \/ (pc <> empty /\ pc_EmbeddedType pc = "poi"
      /\ PlaceCountainer_Place pc = (Place_POI (pc_POI pc), None))
  \/ (pc <> empty /\ pc_EmbeddedType pc = "address"
      /\ PlaceCountainer_Place pc = (Place_Address (pc_Address pc), None))
  \/ (pc <> empty /\ pc_EmbeddedType pc = "stop_point"
      /\ PlaceCountainer_Place pc
         = (Place_StopPoint (pc_StopPoint pc), None))
  \/ (pc <> empty /\ pc_EmbeddedType pc = "administrative_region"
      /\ PlaceCountainer_Place pc
         = (Place_AdministrativeRegion (pc_AdministrativeRegion pc), None))
  \/ (pc <> empty /\ ~ In (pc_EmbeddedType pc) recognized
      /\ PlaceCountainer_Place pc
         = (Place_nil,
            Some (fundamental ("No known embedded type indicated (we have "
                               ++ dquote ++ pc_EmbeddedType pc ++ dquote
                               ++ "), can't return a place !")))).
Proof.
  unfold PlaceCountainer_Place.
  destruct (PlaceCountainer_eqb pc empty) eqn:He.
  { left. apply PlaceCountainer_eqb_empty in He. auto. }
  assert (Hne : pc <> empty).
  { intros Heq. apply PlaceCountainer_eqb_empty in Heq. congruence. }
  right. switch_EmbeddedType pc; [tauto|tauto|tauto|tauto|tauto|].
  do 5 right. repeat split; [assumption|].
  unfold recognized. simpl. intuition congruence.
Qed.

Lemma recognized_cases (s : string) :
  In s recognized <->
  s = "stop_area" \/ s = "poi" \/ s = "address" \/ s = "stop_point"
  \/ s = "administrative_region".
Proof. unfold recognized. simpl. intuition congruence. Qed.

(** X6. [Place] returns an error exactly on the containers that are not
    the zero value and whose discriminant is none of the five. *)
Theorem Place_error_iff (pc : PlaceCountainer) :
  snd (PlaceCountainer_Place pc) <> None
  <-> pc <> empty /\ ~ In (pc_EmbeddedType pc) recognized.
Proof.
  rewrite recognized_cases.
  destruct (Place_cases pc)
    as [[He ->]|[(Hne & He & ->)|[(Hne & He & ->)|[(Hne & He & ->)
       |[(Hne & He & ->)|[(Hne & He & ->)|(Hne & Hno & ->)]]]]]];
    simpl; try (split; [congruence|intros [H1 H2]; tauto]).
  rewrite recognized_cases in Hno. split; [tauto|discriminate].
Qed.

(** X7. The [Place] returned is the nil interface exactly on the zero
    value and on the containers whose discriminant is none of the five. *)
Theorem Place_nil_iff (pc : PlaceCountainer) :
  fst (PlaceCountainer_Place pc) = Place_nil
  <-> pc = empty \/ ~ In (pc_EmbeddedType pc) recognized.
Proof.
  rewrite recognized_cases.
  destruct (Place_cases pc)
    as [[He ->]|[(Hne & He & ->)|[(Hne & He & ->)|[(Hne & He & ->)
       |[(Hne & He & ->)|[(Hne & He & ->)|(Hne & Hno & ->)]]]]]];
    simpl; try tauto;
    try (split; [discriminate|intros [H1|H2]; tauto]).
  rewrite recognized_cases in Hno. tauto.
Qed.

(** X8. [Place] never returns a [Place] together with an error. *)
Theorem Place_never_both (pc : PlaceCountainer) :
  fst (PlaceCountainer_Place pc) = Place_nil
  \/ snd (PlaceCountainer_Place pc) = None.
Proof.
  destruct (Place_cases pc)
    as [[He ->]|[(Hne & He & ->)|[(Hne & He & ->)|[(Hne & He & ->)
       |[(Hne & He & ->)|[(Hne & He & ->)|(Hne & Hno & ->)]]]]]];
    simpl; auto.
Qed.

(** X9. The methods of the [Place] returned can be called, without a
    run-time panic, exactly when the discriminant is one of the five and
    its variant field is not nil; the three methods panic together. *)
Theorem Place_methods_safe_iff (pc : PlaceCountainer) :
  (Place_PlaceType (fst (PlaceCountainer_Place pc)) <> None
   <-> In (pc_EmbeddedType pc) recognized /\ variant_is_nil pc = false)
  /\ (Place_PlaceID (fst (PlaceCountainer_Place pc)) = None
      <-> Place_PlaceType (fst (PlaceCountainer_Place pc)) = None)
  /\ (Place_PlaceName (fst (PlaceCountainer_Place pc)) = None
      <-> Place_PlaceType (fst (PlaceCountainer_Place pc)) = None).
Proof.
  rewrite recognized_cases. unfold variant_is_nil.
  destruct (Place_cases pc)
    as [[He ->]|[(Hne & He & ->)|[(Hne & He & ->)|[(Hne & He & ->)
       |[(Hne & He & ->)|[(Hne & He & ->)|(Hne & Hno & ->)]]]]]].
  - subst pc. simpl. intuition congruence.
  - rewrite He. simpl. destruct (pc_StopArea pc); simpl;
      intuition congruence.
  - rewrite He. simpl. destruct (pc_POI pc); simpl; intuition congruence.
  - rewrite He. simpl. destruct (pc_Address pc); simpl;
      intuition congruence.
  - rewrite He. simpl. destruct (pc_StopPoint pc); simpl;
      intuition congruence.
  - rewrite He. simpl. destruct (pc_AdministrativeRegion pc); simpl;
      intuition congruence.
  - rewrite recognized_cases in Hno. simpl. intuition congruence.
Qed.

(** X10. The ID and the name of the [Place] returned are those of the
    variant the discriminant selects, whatever the [ID] and [Name] fields
    of the container hold. *)
Theorem Place_methods_of_variant (pc : PlaceCountainer) :
  (forall a sa, pc_EmbeddedType pc = "stop_area" ->
     pc_StopArea pc = ptr_to a sa ->
     Place_PlaceID (fst (PlaceCountainer_Place pc)) = Some (sa_ID sa)
     /\ Place_PlaceName (fst (PlaceCountainer_Place pc))
        = Some (sa_Name sa))
  /\ (forall a poi, pc_EmbeddedType pc = "poi" ->
        pc_POI pc = ptr_to a poi ->
        Place_PlaceID (fst (PlaceCountainer_Place pc)) = Some (poi_ID poi)
        /\ Place_PlaceName (fst (PlaceCountainer_Place pc))
           = Some (poi_Name poi))
  /\ (forall a add, pc_EmbeddedType pc = "address" ->
        pc_Address pc = ptr_to a add ->
        Place_PlaceID (fst (PlaceCountainer_Place pc)) = Some (add_ID add)
        /\ Place_PlaceName (fst (PlaceCountainer_Place pc))
           = Some (add_Name add))
  /\ (forall a sp, pc_EmbeddedType pc = "stop_point" ->
        pc_StopPoint pc = ptr_to a sp ->
        Place_PlaceID (fst (PlaceCountainer_Place pc)) = Some (sp_ID sp)
        /\ Place_PlaceName (fst (PlaceCountainer_Place pc))
           = Some (sp_Name sp))
  /\ (forall a ar, pc_EmbeddedType pc = "administrative_region" ->
        pc_AdministrativeRegion pc = ptr_to a ar ->
        Place_PlaceID (fst (PlaceCountainer_Place pc)) = Some (ar_ID ar)
        /\ Place_PlaceName (fst (PlaceCountainer_Place pc))
           = Some (ar_Name ar)).
Proof.
  split; [|split; [|split; [|split]]]; intros a v He Hp;
    unfold PlaceCountainer_Place;
    (rewrite PlaceCountainer_neq_empty;
     [| apply EmbeddedType_neq_empty; rewrite He; discriminate]);
    rewrite He; simpl; rewrite Hp; split; reflexivity.
Qed.

Lemma Place_methods_of_variant_witness :
  pc_ID at_gare_de_lyon_renamed = "stop_area:OIF:SA:0"
  /\ Place_PlaceID (fst (PlaceCountainer_Place at_gare_de_lyon_renamed))
     = Some "stop_area:OIF:SA:8768600"
  /\ Place_PlaceName (fst (PlaceCountainer_Place at_gare_de_lyon_renamed))
     = Some "Gare de Lyon".
Proof.
  split; [reflexivity|].
  apply (proj1 (Place_methods_of_variant at_gare_de_lyon_renamed)
           1%positive gare_de_lyon); reflexivity.
Defined.

(** X11. On containers that are not the zero value, what [Place] returns
    depends on the discriminant and on the variant fields only: the [ID],
    [Name] and [Quality] of the container play no part. *)
Theorem Place_ignores_container_fields (pc1 pc2 : PlaceCountainer) :
  pc1 <> empty -> pc2 <> empty ->
  pc_EmbeddedType pc1 = pc_EmbeddedType pc2 ->
  pc_StopArea pc1 = pc_StopArea pc2 ->
  pc_POI pc1 = pc_POI pc2 ->
  pc_Address pc1 = pc_Address pc2 ->
  pc_StopPoint pc1 = pc_StopPoint pc2 ->
  pc_AdministrativeRegion pc1 = pc_AdministrativeRegion pc2 ->
  PlaceCountainer_Place pc1 = PlaceCountainer_Place pc2.
Proof.
  intros Hne1 Hne2 Het Hsa Hpoi Hadd Hsp Har. unfold PlaceCountainer_Place.
  rewrite (PlaceCountainer_neq_empty pc1 Hne1).
  rewrite (PlaceCountainer_neq_empty pc2 Hne2).
  rewrite Het, Hsa, Hpoi, Hadd, Hsp, Har. reflexivity.
Qed.

Lemma Place_ignores_container_fields_witness :
  PlaceCountainer_Place at_gare_de_lyon
  = PlaceCountainer_Place at_gare_de_lyon_renamed.
Proof.
  apply Place_ignores_container_fields;
    first [discriminate | reflexivity].
Defined.

(** ** Coordinates *)

(** X12. The error [UnmarshalJSON] returns depends on the document only,
    not on what the receiver held. *)
Theorem UnmarshalJSON_error_of_document `{GoLib} (c c' : Coordinates)
    (b : string) :
  snd (Coordinates_UnmarshalJSON c b) = snd (Coordinates_UnmarshalJSON c' b).
Proof. unmarshal_cases b; reflexivity. Qed.

(** X13. When [UnmarshalJSON] returns [nil], nothing of what the receiver
    held is left: any two receivers end up equal. *)
Theorem UnmarshalJSON_success_overwrites `{GoLib} (c c' : Coordinates)
    (b : string) :
  snd (Coordinates_UnmarshalJSON c b) = None ->
  fst (Coordinates_UnmarshalJSON c b) = fst (Coordinates_UnmarshalJSON c' b).
Proof. unmarshal_cases b; intros; first [discriminate|reflexivity]. Qed.

Lemma UnmarshalJSON_success_overwrites_witness :
  fst (@Coordinates_UnmarshalJSON table_lib somewhere
         (api_document "48.5" "2.25"))
  = fst (@Coordinates_UnmarshalJSON table_lib
           {| Latitude := 0%float; Longitude := 0%float |}
           (api_document "48.5" "2.25")).
Proof.
  apply (@UnmarshalJSON_success_overwrites table_lib). reflexivity.
Defined.

(** X14. Decoding the same document once more into the receiver changes
    nothing, whether the first call failed or not. *)
Theorem UnmarshalJSON_again `{GoLib} (c : Coordinates) (b : string) :
  Coordinates_UnmarshalJSON (fst (Coordinates_UnmarshalJSON c b)) b
  = Coordinates_UnmarshalJSON c b.
Proof. unmarshal_cases b; reflexivity. Qed.

(** X15. A document that does not decode leaves the receiver as it was;
    the error returned wraps the error of the decoder. *)
Theorem UnmarshalJSON_bad_document_keeps_receiver `{GoLib}
    (c : Coordinates) (b : string) (e : error) :
  snd (decoded b) = Some e ->
  Coordinates_UnmarshalJSON c b
  = (c, Some (withMessage e "Error while unmarshalling journey")).
Proof. unmarshal_cases b; intros; congruence. Qed.

Lemma UnmarshalJSON_bad_document_keeps_receiver_witness :
  fst (@Coordinates_UnmarshalJSON refusing_lib somewhere not_json)
  = somewhere.
Proof.
  rewrite (@UnmarshalJSON_bad_document_keeps_receiver refusing_lib
             somewhere not_json
             (jsonError "invalid character 'o' in literal null (expecting 'u')")).
  - reflexivity.
  - reflexivity.
Defined.

(** X16. Whatever the document, the latitude of the receiver changes only
    after the longitude has been parsed: a longitude that does not parse,
    or a document that does not decode, leaves the latitude as it was. *)
Theorem UnmarshalJSON_latitude_after_longitude `{GoLib} (c : Coordinates)
    (b : string) :
  snd (decoded b) <> None \/ snd (parsed_lon b) <> None ->
  Latitude (fst (Coordinates_UnmarshalJSON c b)) = Latitude c.
Proof. unmarshal_cases b; intros [Hn|Hn]; congruence. Qed.

Lemma UnmarshalJSON_latitude_after_longitude_witness :
  Latitude (fst (@Coordinates_UnmarshalJSON table_lib somewhere
                   (api_document "48.5" "east")))
  = 1%float.
Proof.
  apply (@UnmarshalJSON_latitude_after_longitude table_lib somewhere
           (api_document "48.5" "east")).
  right. discriminate.
Defined.

(** ** Sections *)

(** X17. The eleven [SectionType] constants are pairwise different, and
    [SectionTypes] describes exactly these: indexing it yields the empty
    string exactly on the strings that are none of the eleven. *)
Theorem SectionTypes_covers_constants :
  List.NoDup section_type_constants
  /\ forall t : SectionType,
       SectionTypes_index t = EmptyString
       <-> ~ In t section_type_constants.
Proof.
  split.
  - unfold section_type_constants.
    repeat (constructor; [simpl; intuition discriminate|]). constructor.
  - intros t.
    unfold SectionTypes_index, SectionTypes, section_type_constants,
      SectionPublicTransport, SectionStreetNetwork, SectionWaiting,
      SectionStayIn, SectionTransfer, SectionCrowFly,
      SectionOnDemandTransport, SectionBikeShareRent,
      SectionBikeSharePutBack, SectionBoarding, SectionLanding.
    repeat (rewrite lookup_insert; case_decide;
            [subst; simpl;
             split; [discriminate|intros Hn; exfalso; apply Hn; tauto]|]).
    rewrite lookup_empty. simpl. intuition congruence.
Qed.

(** ** The error of [Place] *)

(** X18. The error [Place] returns for a discriminant that is none of the
    five quotes that discriminant, between double quotes. *)
Theorem Place_error_quotes_discriminant (pc : PlaceCountainer) :
  snd (PlaceCountainer_Place pc) <> None ->
  snd (PlaceCountainer_Place pc)
  = Some (fundamental ("No known embedded type indicated (we have "
                       ++ dquote ++ pc_EmbeddedType pc ++ dquote
                       ++ "), can't return a place !")).
Proof.
  destruct (Place_cases pc)
    as [[He ->]|[(Hne & He & ->)|[(Hne & He & ->)|[(Hne & He & ->)
       |[(Hne & He & ->)|[(Hne & He & ->)|(Hne & Hno & ->)]]]]]];
    simpl; intros Herr; congruence.
Qed.

Lemma Place_error_quotes_discriminant_witness :
  snd (PlaceCountainer_Place at_unknown)
  = Some (fundamental ("No known embedded type indicated (we have "
                       ++ dquote ++ "line" ++ dquote
                       ++ "), can't return a place !")).
Proof.
  apply (Place_error_quotes_discriminant at_unknown). discriminate.
Defined.

(** ** Round trip *)

(** C7. Encoding coordinates to the API's string-pair document and
    decoding the document with [UnmarshalJSON] gives the coordinates back:
    when the decoder reads the two strings of the document and each
    string parses to a float close to the one that was printed, the call
    returns [nil] and leaves in the receiver, whatever it held, a
    latitude close to the original latitude and a longitude close to the
    original longitude. With equality for closeness, the original
    coordinates come back exactly. *)
Theorem UnmarshalJSON_roundtrip `{GoLib} (FormatFloat : float -> string)
    (close : float -> float -> Prop) (c receiver : Coordinates)
    (lat' lon' : float) :
  decoded (Coordinates_encode FormatFloat c)
  = ({| data_Latitude := FormatFloat (Latitude c);
        data_Longitude := FormatFloat (Longitude c) |}, None) ->
  strconv_ParseFloat (FormatFloat (Latitude c)) 64 = (lat', None) ->
  close (Latitude c) lat' ->
  strconv_ParseFloat (FormatFloat (Longitude c)) 64 = (lon', None) ->
  close (Longitude c) lon' ->
  snd (Coordinates_UnmarshalJSON receiver (Coordinates_encode FormatFloat c))
  = None
  /\ close (Latitude c)
       (Latitude (fst (Coordinates_UnmarshalJSON receiver
                         (Coordinates_encode FormatFloat c))))
  /\ close (Longitude c)
       (Longitude (fst (Coordinates_UnmarshalJSON receiver
                          (Coordinates_encode FormatFloat c)))).
Proof.
  intros Hdec Hlat Clat Hlon Clon.
  rewrite UnmarshalJSON_ok.
  - unfold parsed_lat, parsed_lon. rewrite Hdec. simpl.
    rewrite Hlat, Hlon. simpl. auto.
  - now rewrite Hdec.
  - unfold parsed_lon. rewrite Hdec. simpl. now rewrite Hlon.
  - unfold parsed_lat. rewrite Hdec. simpl. now rewrite Hlat.
Qed.

Lemma UnmarshalJSON_roundtrip_witness :
  snd (@Coordinates_UnmarshalJSON table_lib somewhere
         (Coordinates_encode table_FormatFloat paris)) = None
  /\ Latitude paris
     = Latitude (fst (@Coordinates_UnmarshalJSON table_lib somewhere
                        (Coordinates_encode table_FormatFloat paris)))
  /\ Longitude paris
     = Longitude (fst (@Coordinates_UnmarshalJSON table_lib somewhere
                         (Coordinates_encode table_FormatFloat paris))).
Proof.
  apply (@UnmarshalJSON_roundtrip table_lib table_FormatFloat eq paris
           somewhere 48.5%float 2.25%float); reflexivity.
Defined.

(** The receiver of that run held other coordinates before the call. *)
Example UnmarshalJSON_roundtrip_run :
  @Coordinates_UnmarshalJSON table_lib somewhere
    (Coordinates_encode table_FormatFloat paris)
  = (paris, None)
  /\ PrimFloat.eqb (Latitude somewhere) (Latitude paris) = false
  /\ PrimFloat.eqb (Longitude somewhere) (Longitude paris) = false.
Proof. repeat split. Qed.
